(** * The Microcks async minion module (ensemble/async/async.go)

    A shallow embedding of the package [async]: the functional options that
    edit a container request, the Kafka option that edits a minion handle,
    [RunContainer] and [WSMockEndpoint], together with the parts of Go's
    [strings] and [fmt] packages these functions call. *)

From Stdlib Require Import ZArith Ascii String.
From stdpp Require Import base option list gmap strings.

Local Open Scope string_scope.

(** ** Go's [strings] package

    Go strings are byte sequences; [string] (a list of [ascii] bytes) has the
    same shape.  Every separator and pattern the package passes is a
    non-empty literal; the functions below follow the Go library for
    non-empty patterns. *)
Module Strings.

(** [strings.HasPrefix]. *)
Fixpoint HasPrefix (s prefix : string) {struct prefix} : bool :=
  match prefix, s with
  | EmptyString, _ => true
  | String _ _, EmptyString => false
  | String p prefix', String a s' =>
      if Ascii.eqb a p then HasPrefix s' prefix' else false
  end.

(** [strings.Index]: the byte index of the first instance of [substr] in
    [s], or -1 when there is none. *)
Fixpoint Index (s substr : string) : Z :=
  if HasPrefix s substr then 0%Z
  else match s with
       | EmptyString => (-1)%Z
       | String _ s' =>
           let i := Index s' substr in
           if (i =? -1)%Z then (-1)%Z else (i + 1)%Z
       end.

(** [strings.Contains] is [Index(s, substr) >= 0]. *)
Definition Contains (s substr : string) : bool := (0 <=? Index s substr)%Z.

(** [strings.Join]. *)
Fixpoint Join (elems : list string) (sep : string) : string :=
  match elems with
  | [] => ""
  | [e] => e
  | e :: rest => e +:+ sep +:+ Join rest sep
  end.

(** The scan behind [strings.Split] for a non-empty [sep]: instances of
    the separator are taken from left to right without overlap.  [skip]
    counts the bytes of a separator instance still to be passed over; the
    head of the result is the piece being read. *)
Fixpoint genSplit (sep : string) (skip : nat) (s : string) : list string :=
  match s with
  | EmptyString => [""]
  | String a s' =>
      match skip with
      | S k => genSplit sep k s'
      | O =>
          if HasPrefix s sep
          then "" :: genSplit sep (String.length sep - 1) s'
          else match genSplit sep 0 s' with
               | piece :: pieces => String a piece :: pieces
               | [] => [String a ""]
               end
      end
  end.

(** [strings.Split], for a non-empty separator. *)
Definition Split (s sep : string) : list string := genSplit sep 0 s.

(** The scan behind [strings.ReplaceAll] for a non-empty [old]. *)
Fixpoint replace (old new : string) (skip : nat) (s : string) : string :=
  match s with
  | EmptyString => ""
  | String a s' =>
      match skip with
      | S k => replace old new k s'
      | O =>
          if HasPrefix s old
          then new +:+ replace old new (String.length old - 1) s'
          else String a (replace old new 0 s')
      end
  end.

(** [strings.ReplaceAll], for a non-empty [old]. *)
Definition ReplaceAll (s old new : string) : string := replace old new 0 s.

End Strings.

(** ** Go's [fmt] package *)
Module Fmt.

(** [fmt.Sprintf] for formats whose only verb is [%s] and whose operands
    are strings: each verb is replaced by the next operand; a verb without
    an operand prints [%!s(MISSING)] and operands left over are reported
    after the text, as the Go library does. *)
Fixpoint Sprintf (format : string) (a : list string) : string :=
  match format with
  | EmptyString =>
      match a with
      | [] => ""
      | _ :: _ =>
          "%!(EXTRA "
            +:+ Strings.Join (List.map (fun x => "string=" +:+ x) a) ", "
            +:+ ")"
      end
  | String "%" (String "s" rest) =>
      match a with
      | x :: a' => x +:+ Sprintf rest a'
      | [] => "%!s(MISSING)" +:+ Sprintf rest []
      end
  | String c rest => String c (Sprintf rest a)
  end.

End Fmt.

(** ** The external collaborators

    What the package takes from [context], [wait], [nat] and
    [testcontainers]: opaque types, the readiness strategy constructor and
    the two queries of a running container.  A Go [error] result is an
    [option error], [None] being [nil]. *)
Definition natPort : Type := string.   (* nat.Port is a string type *)

Class Testcontainers := {
  Context : Type;                      (* context.Context *)
  error : Type;                        (* the values of Go's error interface *)
  Strategy : Type;                     (* wait.Strategy *)
  ForLog : string -> Strategy;         (* wait.ForLog *)
  Port : natPort -> string;            (* the method (nat.Port).Port *)
  testcontainers_Container : Type;     (* testcontainers.Container *)
  Host : testcontainers_Container -> Context -> string * option error;
  MappedPort :
    testcontainers_Container -> Context -> natPort -> natPort * option error;
}.

(** [kafka.Connection], of the package connection/kafka. *)
Module kafka.
Record Connection := { BootstrapServers : string }.
End kafka.

Definition DefaultImage : string :=
  "quay.io/microcks/microcks-uber-async-minion:latest".

Definition DefaultHttpPort : string := "8081/tcp".

Definition DefaultNetworkAlias : string := "microcks-async-minion".

Section Requests.
Context `{Testcontainers}.

(** The fields of [testcontainers.ContainerRequest] the package touches.
    A Go map is [None] when nil. *)
Record ContainerRequest := {
  Image : string;
  ExposedPorts : list string;
  WaitingFor : option Strategy;
  Env : option (gmap string string);
  Networks : list string;
  NetworkAliases : option (gmap string (list string));
}.

(** [testcontainers.GenericContainerRequest] embeds a [ContainerRequest];
    the coercion plays the part of Go's field promotion ([req.Env]). *)
Record GenericContainerRequest := {
  Request :> ContainerRequest;
  Started : bool;
}.

Definition set_Env (env : option (gmap string string))
    (req : GenericContainerRequest) : GenericContainerRequest :=
  {| Request := {| Image := Image req; ExposedPorts := ExposedPorts req;
                   WaitingFor := WaitingFor req; Env := env;
                   Networks := Networks req;
                   NetworkAliases := NetworkAliases req |};
     Started := Started req |}.

Definition set_Networks (networks : list string)
    (req : GenericContainerRequest) : GenericContainerRequest :=
  {| Request := {| Image := Image req; ExposedPorts := ExposedPorts req;
                   WaitingFor := WaitingFor req; Env := Env req;
                   Networks := networks;
                   NetworkAliases := NetworkAliases req |};
     Started := Started req |}.

Definition set_NetworkAliases (aliases : option (gmap string (list string)))
    (req : GenericContainerRequest) : GenericContainerRequest :=
  {| Request := {| Image := Image req; ExposedPorts := ExposedPorts req;
                   WaitingFor := WaitingFor req; Env := Env req;
                   Networks := Networks req;
                   NetworkAliases := aliases |};
     Started := Started req |}.

(** Reading a Go map: a nil map reads as an empty one. *)
Definition mapaccess {V : Type} (m : option (gmap string V)) (k : string)
    : option V :=
  m ≫= (fun entries => entries !! k).

(** [testcontainers.ContainerCustomizer]: its one method, [Customize],
    edits the request in place and returns an error. *)
Definition ContainerCustomizer : Type :=
  GenericContainerRequest -> GenericContainerRequest * option error.

(** [testcontainers.CustomizeRequestOption], the function type that
    implements [ContainerCustomizer] by calling itself. *)
Definition CustomizeRequestOption : Type := ContainerCustomizer.

Definition Customize (opt : ContainerCustomizer)
    (req : GenericContainerRequest) : GenericContainerRequest * option error :=
  opt req.

(** [WithNetwork] appends a network name. *)
Definition WithNetwork (networkName : string) : CustomizeRequestOption :=
  fun req => (set_Networks (Networks req ++ [networkName]) req, None).

(** [WithNetworkAlias]: the map is made when nil, then the entry of
    [networkName] is assigned the one-element slice. *)
Definition WithNetworkAlias (networkName networkAlias : string)
    : CustomizeRequestOption :=
  fun req =>
    let req :=
      match NetworkAliases req with
      | None => set_NetworkAliases (Some ∅) req
      | Some _ => req
      end in
    (set_NetworkAliases
       ((fun aliases => <[networkName := [networkAlias]]> aliases)
          <$> NetworkAliases req) req,
     None).

(** [WithEnv]: the map is made when nil, then [key] is assigned. *)
Definition WithEnv (key value : string) : CustomizeRequestOption :=
  fun req =>
    let req :=
      match Env req with
      | None => set_Env (Some ∅) req
      | Some _ => req
      end in
    (set_Env ((fun env => <[key := value]> env) <$> Env req) req, None).

(** The request literal of [RunContainer]. *)
Definition defaultRequest (microcksHostPort : string)
    : GenericContainerRequest :=
  {| Request := {| Image := DefaultImage;
                   ExposedPorts := [DefaultHttpPort];
                   WaitingFor := Some (ForLog "Profile prod activated");
                   Env := Some {[ "MICROCKS_HOST_PORT" := microcksHostPort ]};
                   Networks := [];
                   NetworkAliases := None |};
     Started := true |}.

(** The loop [for _, opt := range opts { opt.Customize(&req) }]: every
    customizer edits the request left by the one before it, and the
    error it returns is dropped. *)
Definition customizeAll (opts : list ContainerCustomizer)
    (req : GenericContainerRequest) : GenericContainerRequest :=
  fold_left (fun req opt => (Customize opt req).1) opts req.

(** The request [RunContainer] holds when it calls the runtime. *)
Definition launchRequest (microcksHostPort : string)
    (opts : list ContainerCustomizer) : GenericContainerRequest :=
  customizeAll opts (defaultRequest microcksHostPort).

End Requests.

(** [testcontainers.GenericContainer], the runtime's create-and-start call.
    Go returns a pair; the container is of use only when the error is nil. *)
Class Runtime `{Testcontainers} := {
  GenericContainer :
    Context -> GenericContainerRequest -> testcontainers_Container * option error;
}.

Section Minion.
Context `{Runtime}.

(** [ContainerOptions] and its method [Add]; the field is [list] in Go. *)
Record ContainerOptions := { list_ : list ContainerCustomizer }.

Definition Add (co : ContainerOptions) (opt : ContainerCustomizer)
    : ContainerOptions :=
  {| list_ := list_ co ++ [opt] |}.

Record MicrocksAysncMinionContainer := {
  Container : testcontainers_Container;
  extraProtocols : string;
  containerOptions : ContainerOptions;
}.

(** [Option], an edit of the minion handle that returns an error. *)
Definition Option : Type :=
  MicrocksAysncMinionContainer -> MicrocksAysncMinionContainer * option error.

Definition set_extraProtocols (protocols : string)
    (minion : MicrocksAysncMinionContainer) : MicrocksAysncMinionContainer :=
  {| Container := Container minion;
     extraProtocols := protocols;
     containerOptions := containerOptions minion |}.

Definition set_containerOptions (co : ContainerOptions)
    (minion : MicrocksAysncMinionContainer) : MicrocksAysncMinionContainer :=
  {| Container := Container minion;
     extraProtocols := extraProtocols minion;
     containerOptions := co |}.

(** The handle literal [&MicrocksAysncMinionContainer{Container: container}]:
    the other fields take their zero values. *)
Definition newMinion (container : testcontainers_Container)
    : MicrocksAysncMinionContainer :=
  {| Container := container;
     extraProtocols := "";
     containerOptions := {| list_ := [] |} |}.

(** [RunContainer].  The pointer result is [None] when nil. *)
Definition RunContainer (ctx : Context) (microcksHostPort : string)
    (opts : list ContainerCustomizer)
    : option MicrocksAysncMinionContainer * option error :=
  let req := launchRequest microcksHostPort opts in
  let '(container, err) := GenericContainer ctx req in
  match err with
  | Some e => (None, Some e)
  | None => (Some (newMinion container), None)
  end.

(** [WithKafkaConnection]. *)
Definition WithKafkaConnection (connection : kafka.Connection) : Option :=
  fun minion =>
    let minion :=
      if negb (Strings.Contains (extraProtocols minion) ",KAFKA")
      then set_extraProtocols
             (Strings.Join [extraProtocols minion; ",KAFKA"] "") minion
      else minion in
    let minion :=
      set_containerOptions
        (Add (containerOptions minion)
             (WithEnv "ASYNC_PROTOCOLS" (extraProtocols minion))) minion in
    let minion :=
      set_containerOptions
        (Add (containerOptions minion)
             (WithEnv "KAFKA_BOOTSTRAP_SERVER"
                      (kafka.BootstrapServers connection))) minion in
    (minion, None).

(** The rewriting of [operationName] in [WSMockEndpoint]; indexing the
    split at 1 panics when the slice is shorter, which is [None] here. *)
Definition operationSegment (operationName : string) : option string :=
  if negb (Strings.Index operationName " " =? -1)%Z
  then Strings.Split operationName " " !! 1%nat
  else Some operationName.

(** [WSMockEndpoint].  [None] stands for a run-time panic. *)
Definition WSMockEndpoint (container : MicrocksAysncMinionContainer)
    (ctx : Context) (service version operationName : string)
    : option (string * option error) :=
  let '(host, err) := Host (Container container) ctx in
  match err with
  | Some e => Some ("", Some e)
  | None =>
      let '(port, err) := MappedPort (Container container) ctx DefaultHttpPort in
      match err with
      | Some e => Some ("", Some e)
      | None =>
          operationName ← operationSegment operationName;
          Some (Fmt.Sprintf "ws://%s:%s/api/ws/%s/%s/%s"
                  [host; Port port;
                   Strings.ReplaceAll service " " "+";
                   Strings.ReplaceAll version " " "+";
                   operationName],
                None)
      end
  end.

(** Applying the Kafka option once per connection of [connections], in
    order, to a handle. *)
Definition applyKafka (connections : list kafka.Connection)
    (minion : MicrocksAysncMinionContainer) : MicrocksAysncMinionContainer :=
  fold_left (fun minion c => (WithKafkaConnection c minion).1)
            connections minion.

(** The handles the package can produce: [extraProtocols] is unexported,
    a handle starts from the literal of [RunContainer] and the only
    function that writes the field is [WithKafkaConnection]. *)
Inductive reachable : MicrocksAysncMinionContainer -> Prop :=
| reachable_new container : reachable (newMinion container)
| reachable_kafka connection minion :
    reachable minion -> reachable (WithKafkaConnection connection minion).1.

End Minion.

(** ** The vocabulary of the specification

    Definitions that follow the specification's words; the theorems relate
    them to the functions above. *)

(** The number of positions of [s] at which [fragment] occurs. *)
Fixpoint occurrences (s fragment : string) : nat :=
  (if Strings.HasPrefix s fragment then 1 else 0)
  + match s with
    | EmptyString => 0
    | String _ s' => occurrences s' fragment
    end.

(** Every space character replaced by a plus sign. *)
Fixpoint spacesToPlus (s : string) : string :=
  match s with
  | EmptyString => ""
  | String a s' =>
      String (if Ascii.eqb a " " then "+"%char else a) (spacesToPlus s')
  end.

Fixpoint hasSpace (s : string) : bool :=
  match s with
  | EmptyString => false
  | String a s' => Ascii.eqb a " " || hasSpace s'
  end.

(** The text before the first space, all of [s] when it has none. *)
Fixpoint beforeSpace (s : string) : string :=
  match s with
  | EmptyString => ""
  | String a s' => if Ascii.eqb a " " then "" else String a (beforeSpace s')
  end.

(** The text after the first space, empty when [s] has none. *)
Fixpoint afterSpace (s : string) : string :=
  match s with
  | EmptyString => ""
  | String a s' => if Ascii.eqb a " " then s' else afterSpace s'
  end.

(** The second token of a name split on spaces. *)
Definition secondToken (s : string) : string := beforeSpace (afterSpace s).

(** The normalized operation name: the second token of a name that has a
    space, the name itself otherwise. *)
Definition normalizedOperation (operationName : string) : string :=
  if hasSpace operationName then secondToken operationName else operationName.

(** The value of the last call, in a sequence of [WithEnv (key, value)]
    calls, whose key is [k]. *)
Fixpoint lastValue (k : string) (calls : list (string * string))
    : option string :=
  match calls with
  | [] => None
  | (key, value) :: rest =>
      match lastValue k rest with
      | Some later => Some later
      | None => if decide (key = k) then Some value else None
      end
  end.

(** ** Sequences of the package's own customizers

    A caller's option list made of [WithNetwork], [WithNetworkAlias] and
    [WithEnv] calls, kept as data so that a property can speak of every such
    list. *)
Inductive moduleOption :=
| NetworkOption (networkName : string)
| NetworkAliasOption (networkName networkAlias : string)
| EnvOption (key value : string).

Section ModuleOptions.
Context `{Testcontainers}.

(** The customizer a call stands for. *)
Definition customizerOf (o : moduleOption) : ContainerCustomizer :=
  match o with
  | NetworkOption networkName => WithNetwork networkName
  | NetworkAliasOption networkName networkAlias =>
      WithNetworkAlias networkName networkAlias
  | EnvOption key value => WithEnv key value
  end.

(** Adding customizers one after the other to a [ContainerOptions]. *)
Definition addAll (co : ContainerOptions) (opts : list ContainerCustomizer)
    : ContainerOptions :=
  fold_left Add opts co.

End ModuleOptions.

(** The network names of the [WithNetwork] calls, in call order. *)
Fixpoint networkNames (os : list moduleOption) : list string :=
  match os with
  | [] => []
  | NetworkOption networkName :: rest => networkName :: networkNames rest
  | _ :: rest => networkNames rest
  end.

(** The (key, value) pairs of the [WithEnv] calls, in call order. *)
Fixpoint envCalls (os : list moduleOption) : list (string * string) :=
  match os with
  | [] => []
  | EnvOption key value :: rest => (key, value) :: envCalls rest
  | _ :: rest => envCalls rest
  end.

(** The (network, alias) pairs of the [WithNetworkAlias] calls, in call
    order. *)
Fixpoint aliasCalls (os : list moduleOption) : list (string * string) :=
  match os with
  | [] => []
  | NetworkAliasOption networkName networkAlias :: rest =>
      (networkName, networkAlias) :: aliasCalls rest
  | _ :: rest => aliasCalls rest
  end.

(** ** A stand-in runtime, to run the package on concrete inputs *)

Record fakeContainer := {
  fakeHost : string * option string;
  fakePort : natPort * option string;
}.

(** The Docker library's [Port] method yields the part of "49213/tcp" that
    precedes the slash. *)
Definition fakePortNumber (p : natPort) : string :=
  default "" (head (Strings.Split p "/")).

Definition fakeLibrary : Testcontainers :=
  {| Context := unit;
     error := string;
     Strategy := string;
     ForLog := fun log => log;
     Port := fakePortNumber;
     testcontainers_Container := fakeContainer;
     Host := fun c _ => fakeHost c;
     MappedPort := fun c _ _ => fakePort c |}.

Definition localContainer : fakeContainer :=
  {| fakeHost := ("localhost", None); fakePort := ("49213/tcp", None) |}.

Definition stoppedContainer : fakeContainer :=
  {| fakeHost := ("", Some "container is not running");
     fakePort := ("", Some "port not found") |}.

Definition unmappedContainer : fakeContainer :=
  {| fakeHost := ("localhost", None); fakePort := ("", Some "port not found") |}.

(** A runtime whose start always succeeds, and one whose start always fails. *)
Definition startingRuntime : @Runtime fakeLibrary :=
  @Build_Runtime fakeLibrary (fun _ _ => (localContainer, None)).

Definition failingRuntime : @Runtime fakeLibrary :=
  @Build_Runtime fakeLibrary
    (fun _ _ => (stoppedContainer, Some "daemon unreachable")).

(** The handle of a container the stand-in runtime reports on. *)
Definition fakeMinion (c : fakeContainer)
    : @MicrocksAysncMinionContainer fakeLibrary :=
  @newMinion fakeLibrary c.

(** ** The functions on concrete inputs *)

Example Index_found : Strings.Index "POST /orders" " " = 4%Z.
Proof. reflexivity. Qed.

Example Index_missing : Strings.Index "subscribe" " " = (-1)%Z.
Proof. reflexivity. Qed.

Example Split_three : Strings.Split "a b  c" " " = ["a"; "b"; ""; "c"].
Proof. reflexivity. Qed.

Example Split_long_sep : Strings.Split "a--b---c" "--" = ["a"; "b"; "-c"].
Proof. reflexivity. Qed.

Example ReplaceAll_spaces :
  Strings.ReplaceAll "1.0 beta 2" " " "+" = "1.0+beta+2".
Proof. reflexivity. Qed.

Example Join_empty_sep : Strings.Join ["a"; ",KAFKA"] "" = "a,KAFKA".
Proof. reflexivity. Qed.

Example Sprintf_two : Fmt.Sprintf "ws://%s:%s/" ["h"; "1"] = "ws://h:1/".
Proof. reflexivity. Qed.

Example WSMockEndpoint_pets :
  @WSMockEndpoint fakeLibrary (fakeMinion localContainer) tt
    "Pets" "v1" "subscribe"
  = Some ("ws://localhost:49213/api/ws/Pets/v1/subscribe", None).
Proof. reflexivity. Qed.

Example WSMockEndpoint_post :
  @WSMockEndpoint fakeLibrary (fakeMinion localContainer) tt
    "Pets" "v1" "POST /orders"
  = Some ("ws://localhost:49213/api/ws/Pets/v1//orders", None).
Proof. reflexivity. Qed.

(** ** Facts about the string functions *)

Lemma append_empty_r (s : string) : s +:+ "" = s.
Proof.
  induction s as [|a s IH]; [reflexivity|].
  change (String a (s +:+ "") = String a s). by rewrite IH.
Qed.

Lemma HasPrefix_space (a : ascii) (s : string) :
  Strings.HasPrefix (String a s) " " = Ascii.eqb a " ".
Proof. simpl. by destruct (Ascii.eqb a " "). Qed.

(** [Index] never goes below -1. *)
Lemma Index_lower_bound (s substr : string) : (-1 <= Strings.Index s substr)%Z.
Proof.
  induction s as [|a s IH]; cbn [Strings.Index];
    destruct (Strings.HasPrefix _ substr); try lia.
  destruct (Z.eqb_spec (Strings.Index s substr) (-1)); lia.
Qed.

Lemma Index_space_hasSpace (s : string) :
  (Strings.Index s " " =? -1)%Z = negb (hasSpace s).
Proof.
  induction s as [|a s IH]; [reflexivity|].
  cbn [Strings.Index hasSpace]. rewrite HasPrefix_space.
  destruct (Ascii.eqb a " "); [reflexivity|]. simpl orb.
  pose proof (Index_lower_bound s " ") as Hlo.
  destruct (Z.eqb_spec (Strings.Index s " ") (-1)) as [Heq|Hne].
  - by rewrite <- IH.
  - rewrite <- IH. apply Z.eqb_neq. lia.
Qed.

(** Splitting on a space: the first piece is the text before the first
    space, and the other pieces are those of the text after it. *)
Lemma Split_space_unfold (s : string) :
  Strings.Split s " "
  = beforeSpace s
      :: (if hasSpace s then Strings.Split (afterSpace s) " " else []).
Proof.
  unfold Strings.Split.
  induction s as [|a s IH]; [reflexivity|].
  cbn [Strings.genSplit beforeSpace hasSpace afterSpace].
  rewrite HasPrefix_space.
  destruct (Ascii.eqb a " "); [reflexivity|].
  rewrite IH. reflexivity.
Qed.

Lemma Split_space_second (s : string) :
  hasSpace s = true -> Strings.Split s " " !! 1%nat = Some (secondToken s).
Proof.
  intros Hs. rewrite Split_space_unfold, Hs.
  rewrite (Split_space_unfold (afterSpace s)). reflexivity.
Qed.

Lemma ReplaceAll_space_plus (s : string) :
  Strings.ReplaceAll s " " "+" = spacesToPlus s.
Proof.
  unfold Strings.ReplaceAll.
  induction s as [|a s IH]; [reflexivity|].
  cbn [Strings.replace spacesToPlus]. rewrite HasPrefix_space.
  destruct (Ascii.eqb a " "); simpl; by rewrite IH.
Qed.

Lemma Sprintf_ws (host port service version operation : string) :
  Fmt.Sprintf "ws://%s:%s/api/ws/%s/%s/%s"
    [host; port; service; version; operation]
  = "ws://" +:+ host +:+ ":" +:+ port +:+ "/api/ws/" +:+ service
      +:+ "/" +:+ version +:+ "/" +:+ operation.
Proof.
  rewrite <- (append_empty_r operation) at 2. reflexivity.
Qed.

Section EndpointFacts.
Context `{Testcontainers}.

(** The rewriting of the operation name never panics and yields the
    normalized operation name. *)
Lemma operationSegment_normalized (operationName : string) :
  operationSegment operationName = Some (normalizedOperation operationName).
Proof.
  unfold operationSegment, normalizedOperation.
  rewrite Index_space_hasSpace, negb_involutive.
  destruct (hasSpace operationName) eqn:Hs; [|reflexivity].
  by apply Split_space_second.
Qed.

Lemma WSMockEndpoint_resolved minion ctx service version operationName h p :
  Host (Container minion) ctx = (h, None) ->
  MappedPort (Container minion) ctx DefaultHttpPort = (p, None) ->
  WSMockEndpoint minion ctx service version operationName
  = Some ("ws://" +:+ h +:+ ":" +:+ Port p +:+ "/api/ws/"
            +:+ spacesToPlus service +:+ "/" +:+ spacesToPlus version
            +:+ "/" +:+ normalizedOperation operationName, None).
Proof.
  intros Hh Hp. unfold WSMockEndpoint. rewrite Hh, Hp.
  rewrite operationSegment_normalized. cbn [mbind option_bind].
  by rewrite Sprintf_ws, !ReplaceAll_space_plus.
Qed.

End EndpointFacts.

(** ** Facts about tokens *)

Lemma append_cons (a : ascii) (s t : string) :
  String a s +:+ t = String a (s +:+ t).
Proof. reflexivity. Qed.

Lemma hasSpace_app_space (verb rest : string) :
  hasSpace (verb +:+ " " +:+ rest) = true.
Proof.
  induction verb as [|a verb IH]; [reflexivity|].
  rewrite append_cons. cbn [hasSpace]. rewrite IH. apply orb_true_r.
Qed.

Lemma afterSpace_app (verb rest : string) :
  hasSpace verb = false -> afterSpace (verb +:+ " " +:+ rest) = rest.
Proof.
  induction verb as [|a verb IH]; [reflexivity|].
  cbn [hasSpace]. intros [Ha Hv]%orb_false_iff.
  rewrite append_cons. cbn [afterSpace]. rewrite Ha. by apply IH.
Qed.

Lemma beforeSpace_app (path rest : string) :
  hasSpace path = false -> beforeSpace (path +:+ " " +:+ rest) = path.
Proof.
  induction path as [|a path IH]; [reflexivity|].
  cbn [hasSpace]. intros [Ha Hp]%orb_false_iff.
  rewrite append_cons. cbn [beforeSpace]. rewrite Ha. by rewrite IH.
Qed.

Lemma beforeSpace_whole (path : string) :
  hasSpace path = false -> beforeSpace path = path.
Proof.
  induction path as [|a path IH]; [reflexivity|].
  cbn [hasSpace beforeSpace]. intros [Ha Hp]%orb_false_iff.
  rewrite Ha. by rewrite IH.
Qed.

(** The second token of "verb path" and of "verb path more" is the path. *)
Lemma secondToken_verb_path (verb path : string) :
  hasSpace verb = false -> hasSpace path = false ->
  secondToken (verb +:+ " " +:+ path) = path.
Proof.
  intros Hv Hp. unfold secondToken.
  rewrite afterSpace_app by done. by apply beforeSpace_whole.
Qed.

Lemma secondToken_verb_path_more (verb path more : string) :
  hasSpace verb = false -> hasSpace path = false ->
  secondToken (verb +:+ " " +:+ path +:+ " " +:+ more) = path.
Proof.
  intros Hv Hp. unfold secondToken.
  rewrite afterSpace_app by done. by apply beforeSpace_app.
Qed.

(** ** The endpoint resolver *)

Section EndpointResolver.
Context `{Testcontainers}.

(** C2. When the runtime returns host [h] and a mapped port [p] whose
    number is [Port p], [WSMockEndpoint] returns, with a nil error, the
    text ws://h:p/api/ws/S/V/O where S and V are the service and the
    version with every space replaced by a plus sign and O is the
    normalized operation name.  With host localhost, port 49213, service
    Pets, version v1 and operation subscribe this is
    ws://localhost:49213/api/ws/Pets/v1/subscribe; with service
    "Order Service" and version "1.0 beta" the segments are Order+Service
    and 1.0+beta. *)
Theorem WSMockEndpoint_url minion ctx h p :
  Host (Container minion) ctx = (h, None) ->
  MappedPort (Container minion) ctx DefaultHttpPort = (p, None) ->
  (forall service version operationName,
      WSMockEndpoint minion ctx service version operationName
      = Some ("ws://" +:+ h +:+ ":" +:+ Port p +:+ "/api/ws/"
                +:+ spacesToPlus service +:+ "/" +:+ spacesToPlus version
                +:+ "/" +:+ normalizedOperation operationName, None))
  /\ (h = "localhost" -> Port p = "49213" ->
      WSMockEndpoint minion ctx "Pets" "v1" "subscribe"
      = Some ("ws://localhost:49213/api/ws/Pets/v1/subscribe", None))
  /\ (forall operationName,
      WSMockEndpoint minion ctx "Order Service" "1.0 beta" operationName
      = Some ("ws://" +:+ h +:+ ":" +:+ Port p +:+ "/api/ws/"
                +:+ "Order+Service" +:+ "/" +:+ "1.0+beta"
                +:+ "/" +:+ normalizedOperation operationName, None)).
Proof.
  intros Hh Hp. split; [|split].
  - intros. by apply WSMockEndpoint_resolved.
  - intros -> Hnum.
    rewrite (WSMockEndpoint_resolved _ _ _ _ _ _ _ Hh Hp), Hnum.
    reflexivity.
  - intros. by rewrite (WSMockEndpoint_resolved _ _ _ _ _ _ _ Hh Hp).
Qed.

(** C3, as amended.  For an operation name that has a space,
    [WSMockEndpoint] uses as operation segment the second token of the
    name split on spaces: the verb before the first space and every token
    after the second are dropped.  The token is taken as it stands, so
    "POST /orders" gives the segment "/orders", slash included. *)
Theorem WSMockEndpoint_second_token minion ctx h p service version operationName :
  Host (Container minion) ctx = (h, None) ->
  MappedPort (Container minion) ctx DefaultHttpPort = (p, None) ->
  hasSpace operationName = true ->
  operationSegment operationName = Some (secondToken operationName)
  /\ WSMockEndpoint minion ctx service version operationName
     = Some ("ws://" +:+ h +:+ ":" +:+ Port p +:+ "/api/ws/"
               +:+ spacesToPlus service +:+ "/" +:+ spacesToPlus version
               +:+ "/" +:+ secondToken operationName, None)
  /\ (forall verb path more,
        hasSpace verb = false -> hasSpace path = false ->
        secondToken (verb +:+ " " +:+ path) = path
        /\ secondToken (verb +:+ " " +:+ path +:+ " " +:+ more) = path)
  /\ operationSegment "POST /orders" = Some "/orders".
Proof.
  intros Hh Hp Hs.
  assert (normalizedOperation operationName = secondToken operationName)
    as Hnorm by (unfold normalizedOperation; by rewrite Hs).
  split; [|split; [|split]].
  - by rewrite operationSegment_normalized, Hnorm.
  - by rewrite (WSMockEndpoint_resolved _ _ _ _ _ _ _ Hh Hp), Hnorm.
  - intros verb path more Hv Hpath. split.
    + by apply secondToken_verb_path.
    + by apply secondToken_verb_path_more.
  - reflexivity.
Qed.

(** C9. [WSMockEndpoint] never panics.  It returns an error exactly when
    the host lookup or the mapped-port lookup fails, and then it returns
    the empty text with that very error: the host's when the host lookup
    fails, the port's otherwise.  When both lookups succeed the service,
    version and operation names are interpolated as they are, empty
    ones included. *)
Theorem WSMockEndpoint_errors minion ctx service version operationName :
  exists url err,
    WSMockEndpoint minion ctx service version operationName = Some (url, err)
    /\ (is_Some err <->
        is_Some (Host (Container minion) ctx).2
        \/ is_Some (MappedPort (Container minion) ctx DefaultHttpPort).2)
    /\ (forall e, err = Some e ->
          url = ""
          /\ ((Host (Container minion) ctx).2 = Some e
              \/ ((Host (Container minion) ctx).2 = None
                  /\ (MappedPort (Container minion) ctx DefaultHttpPort).2
                     = Some e)))
    /\ (err = None ->
          url = "ws://" +:+ (Host (Container minion) ctx).1 +:+ ":"
                  +:+ Port (MappedPort (Container minion) ctx DefaultHttpPort).1
                  +:+ "/api/ws/" +:+ spacesToPlus service +:+ "/"
                  +:+ spacesToPlus version +:+ "/"
                  +:+ normalizedOperation operationName)
    /\ (err = None -> service = "" -> version = "" -> operationName = "" ->
          url = "ws://" +:+ (Host (Container minion) ctx).1 +:+ ":"
                  +:+ Port (MappedPort (Container minion) ctx DefaultHttpPort).1
                  +:+ "/api/ws///").
Proof.
  destruct (Host (Container minion) ctx) as [h [eh|]] eqn:Hh.
  - exists "", (Some eh). unfold WSMockEndpoint. rewrite Hh. simpl.
    repeat split; try done; eauto.
  - destruct (MappedPort (Container minion) ctx DefaultHttpPort)
      as [p [ep|]] eqn:Hp.
    + exists "", (Some ep). unfold WSMockEndpoint. rewrite Hh, Hp. simpl.
      repeat split; try done; eauto.
    + eexists _, None.
      rewrite (WSMockEndpoint_resolved _ _ _ _ _ _ _ Hh Hp). simpl.
      repeat split; try done.
      * intros [[? ?]|[? ?]]; done.
      * intros _ -> -> ->. reflexivity.
Qed.

End EndpointResolver.

(** ** The request customizers *)

Section Customizers.
Context `{Testcontainers}.

Lemma customizeAll_cons opt opts req :
  customizeAll (opt :: opts) req = customizeAll opts (Customize opt req).1.
Proof. reflexivity. Qed.

Lemma customizeAll_snoc opts opt req :
  customizeAll (opts ++ [opt]) req = (Customize opt (customizeAll opts req)).1.
Proof. unfold customizeAll. by rewrite fold_left_app. Qed.

Lemma WithEnv_Env key value req :
  Env (WithEnv key value req).1
  = Some (<[key := value]> (default ∅ (Env req))).
Proof.
  unfold WithEnv. destruct (Env req) eqn:Henv; simpl; [|done].
  by rewrite Henv.
Qed.

Lemma WithEnv_mapaccess key value req k :
  mapaccess (Env (WithEnv key value req).1) k
  = if decide (key = k) then Some value else mapaccess (Env req) k.
Proof.
  rewrite WithEnv_Env. unfold mapaccess. cbn [mbind option_bind].
  rewrite lookup_insert. case_decide; [done|].
  destruct (Env req); [done|]. apply lookup_empty.
Qed.

Lemma WithNetworkAlias_NetworkAliases networkName networkAlias req :
  NetworkAliases (WithNetworkAlias networkName networkAlias req).1
  = Some (<[networkName := [networkAlias]]> (default ∅ (NetworkAliases req))).
Proof.
  unfold WithNetworkAlias.
  destruct (NetworkAliases req) eqn:Haliases; simpl; [|done].
  by rewrite Haliases.
Qed.

(** C4. After a sequence of [WithEnv] customizations applied in order,
    a key reads as the value of the last call of the sequence made with
    that key, and as it read before when no call was made with it; no call
    returns an error, and the mapping exists once one call was made,
    whether or not the request had one. *)
Theorem WithEnv_last_writer_wins
    (calls : list (string * string)) (req : GenericContainerRequest)
    (k : string) :
  let final :=
    customizeAll (List.map (fun kv => WithEnv kv.1 kv.2) calls) req in
  mapaccess (Env final) k
  = match lastValue k calls with
    | Some value => Some value
    | None => mapaccess (Env req) k
    end
  /\ (forall key value r, (Customize (WithEnv key value) r).2 = None)
  /\ (calls = [] \/ is_Some (Env final)).
Proof.
  cbv zeta. split; [|split].
  - revert req. induction calls as [|[key value] rest IH]; intros req.
    + reflexivity.
    + cbn [List.map lastValue]. rewrite customizeAll_cons.
      unfold Customize. rewrite IH.
      destruct (lastValue k rest); [done|].
      rewrite WithEnv_mapaccess. cbn [fst snd]. by case_decide.
  - reflexivity.
  - destruct calls as [|kv rest _] using rev_ind; [by left|right].
    rewrite List.map_app. cbn [List.map]. rewrite customizeAll_snoc.
    unfold Customize. rewrite WithEnv_Env. eauto.
Qed.

(** C6. [WithNetworkAlias n a1] followed by [WithNetworkAlias n a2]
    leaves for the network [n] the one-element alias list [a2]: the second
    call overwrites the first, as if the first had not been made. *)
Theorem WithNetworkAlias_overwrites
    (req : GenericContainerRequest) (n a1 a2 : string) :
  let final :=
    customizeAll [WithNetworkAlias n a1; WithNetworkAlias n a2] req in
  mapaccess (NetworkAliases final) n = Some [a2]
  /\ NetworkAliases final
     = NetworkAliases (customizeAll [WithNetworkAlias n a2] req).
Proof.
  cbv zeta. unfold customizeAll, Customize. cbn [fold_left].
  rewrite !WithNetworkAlias_NetworkAliases. cbn [from_option id].
  split.
  - unfold mapaccess. cbn [mbind option_bind]. apply lookup_insert_eq.
  - by rewrite insert_insert_eq.
Qed.

End Customizers.

(** ** Launching the container *)

Section Launch.
Context `{Runtime}.

Lemma RunContainer_unfold ctx microcksHostPort opts :
  RunContainer ctx microcksHostPort opts
  = match GenericContainer ctx (launchRequest microcksHostPort opts) with
    | (_, Some e) => (None, Some e)
    | (container, None) => (Some (newMinion container), None)
    end.
Proof.
  unfold RunContainer.
  by destruct (GenericContainer ctx _) as [container [e|]].
Qed.

(** C7. The request [RunContainer] starts from has the default image,
    the one exposed port 8081/tcp, the readiness condition on a log line,
    an environment that binds MICROCKS_HOST_PORT to the caller's value and
    nothing else, and no network or alias.  Every customizer is then called
    on it in the order given, each one on the request left by those before
    it: the first on the starting request, the last on what all the others
    made, so that of two [WithEnv] calls on one key the second is the one
    read and two [WithNetwork] calls leave their names in call order.  The
    outcome of [RunContainer] is that of the runtime's create-and-start call
    on the request so obtained. *)
Theorem RunContainer_request ctx microcksHostPort opts :
  let initial := launchRequest microcksHostPort [] in
  let edited := fold_left (fun req opt => (opt req).1) opts initial in
  (Image initial = "quay.io/microcks/microcks-uber-async-minion:latest"
   /\ ExposedPorts initial = ["8081/tcp"]
   /\ WaitingFor initial = Some (ForLog "Profile prod activated")
   /\ Env initial = Some {[ "MICROCKS_HOST_PORT" := microcksHostPort ]}
   /\ (forall k, mapaccess (Env initial) k
                 = if decide (k = "MICROCKS_HOST_PORT")
                   then Some microcksHostPort else None)
   /\ Networks initial = []
   /\ NetworkAliases initial = None
   /\ Started initial = true)
  /\ launchRequest microcksHostPort opts = edited
  /\ (forall first rest,
        opts = first :: rest ->
        launchRequest microcksHostPort opts
        = fold_left (fun req opt => (opt req).1) rest (first initial).1)
  /\ (forall before last,
        opts = (before ++ [last])%list ->
        launchRequest microcksHostPort opts
        = (last (launchRequest microcksHostPort before)).1)
  /\ (forall k v1 v2,
        opts = [WithEnv k v1; WithEnv k v2] ->
        mapaccess (Env (launchRequest microcksHostPort opts)) k = Some v2)
  /\ (forall n1 n2,
        opts = [WithNetwork n1; WithNetwork n2] ->
        Networks (launchRequest microcksHostPort opts) = [n1; n2])
  /\ RunContainer ctx microcksHostPort opts
     = match GenericContainer ctx edited with
       | (_, Some e) => (None, Some e)
       | (container, None) => (Some (newMinion container), None)
       end.
Proof.
  cbv zeta.
  split; [|split; [|split; [|split; [|split; [|split]]]]].
  - repeat split. intros k. unfold mapaccess. cbn. case_decide as Hk.
    + subst k. apply lookup_singleton_eq.
    + by apply lookup_singleton_ne.
  - reflexivity.
  - by intros first rest ->.
  - intros before last ->. unfold launchRequest.
    apply customizeAll_snoc.
  - intros k v1 v2 ->. unfold launchRequest, customizeAll, Customize.
    cbn [fold_left]. rewrite WithEnv_mapaccess. by case_decide.
  - by intros n1 n2 ->.
  - apply RunContainer_unfold.
Qed.

(** C8. When the runtime's create-and-start call fails, [RunContainer]
    returns a nil handle and the runtime's error itself; when the call
    succeeds it returns a handle, on the container the runtime gave, and a
    nil error.  The runtime is called once, on the launch request. *)
Theorem RunContainer_outcome ctx microcksHostPort opts :
  (forall container e,
      GenericContainer ctx (launchRequest microcksHostPort opts)
      = (container, Some e) ->
      RunContainer ctx microcksHostPort opts = (None, Some e))
  /\ (forall container,
      GenericContainer ctx (launchRequest microcksHostPort opts)
      = (container, None) ->
      exists minion,
        RunContainer ctx microcksHostPort opts = (Some minion, None)
        /\ Container minion = container)
  /\ (is_Some (RunContainer ctx microcksHostPort opts).2 <->
      is_Some (GenericContainer ctx (launchRequest microcksHostPort opts)).2)
  /\ (is_Some (RunContainer ctx microcksHostPort opts).1 <->
      (RunContainer ctx microcksHostPort opts).2 = None).
Proof.
  rewrite RunContainer_unfold.
  destruct (GenericContainer ctx _) as [container [e|]].
  - repeat split; try done.
    + by intros c e' [= _ ->].
    + by intros [? ?].
  - repeat split; try done; eauto.
    + intros c [= <-]. by eexists.
Qed.

End Launch.

(** ** The protocol tag string *)

Lemma HasPrefix_cons (a p : ascii) (s prefix : string) :
  Strings.HasPrefix (String a s) (String p prefix)
  = if Ascii.eqb a p then Strings.HasPrefix s prefix else false.
Proof. reflexivity. Qed.

Lemma occurrences_cons (a : ascii) (s fragment : string) :
  occurrences (String a s) fragment
  = (if Strings.HasPrefix (String a s) fragment then 1 else 0)
    + occurrences s fragment.
Proof. reflexivity. Qed.

(** [Index] finds nothing exactly when the fragment occurs nowhere. *)
Lemma Index_none_occurrences (s fragment : string) :
  Strings.Index s fragment = (-1)%Z <-> occurrences s fragment = 0.
Proof.
  induction s as [|a s IH].
  - cbn [Strings.Index occurrences].
    destruct (Strings.HasPrefix "" fragment); split; (lia || done).
  - cbn [Strings.Index]. rewrite occurrences_cons.
    destruct (Strings.HasPrefix (String a s) fragment).
    + split; [lia | done].
    + pose proof (Index_lower_bound s fragment) as Hlo.
      destruct (Z.eqb_spec (Strings.Index s fragment) (-1)) as [Heq|Hne].
      * split; [intros _; by apply IH | done].
      * split; [lia|]. intros Hocc. exfalso. apply Hne, IH. exact Hocc.
Qed.

Lemma Contains_occurrences (s fragment : string) :
  Strings.Contains s fragment = false <-> occurrences s fragment = 0.
Proof.
  rewrite <- Index_none_occurrences. unfold Strings.Contains.
  pose proof (Index_lower_bound s fragment).
  rewrite Z.leb_gt. lia.
Qed.

(** No proper end of ",KAFKA" is a start of it, so an instance of the
    fragment cannot straddle the place where it is appended. *)
Lemma KAFKA_no_overlap (a : ascii) (s : string) :
  Strings.HasPrefix (String a s) ",KAFKA" = false ->
  Strings.HasPrefix (String a s +:+ ",KAFKA") ",KAFKA" = false.
Proof.
  intros Hs.
  rewrite append_cons, HasPrefix_cons. rewrite HasPrefix_cons in Hs.
  destruct (Ascii.eqb _ _); [|reflexivity].
  do 5 (destruct s as [|? s];
        [ reflexivity
        | rewrite append_cons, HasPrefix_cons;
          rewrite HasPrefix_cons in Hs;
          destruct (Ascii.eqb _ _); [|reflexivity] ]).
  discriminate Hs.
Qed.

Lemma KAFKA_appended_once (s : string) :
  occurrences s ",KAFKA" = 0 -> occurrences (s +:+ ",KAFKA") ",KAFKA" = 1.
Proof.
  induction s as [|a s IH]; [reflexivity|].
  rewrite occurrences_cons, append_cons, occurrences_cons.
  destruct (Strings.HasPrefix (String a s) ",KAFKA") eqn:Hpre; [done|].
  intros Hocc. rewrite <- append_cons, (KAFKA_no_overlap _ _ Hpre).
  by rewrite IH.
Qed.

Section KafkaOption.
Context `{Testcontainers}.

Lemma WithKafkaConnection_extraProtocols connection minion :
  extraProtocols (WithKafkaConnection connection minion).1
  = if Strings.Contains (extraProtocols minion) ",KAFKA"
    then extraProtocols minion
    else extraProtocols minion +:+ ",KAFKA".
Proof.
  unfold WithKafkaConnection.
  by destruct (Strings.Contains (extraProtocols minion) ",KAFKA").
Qed.

Lemma WithKafkaConnection_list connection minion :
  list_ (containerOptions (WithKafkaConnection connection minion).1)
  = (list_ (containerOptions minion)
      ++ [WithEnv "ASYNC_PROTOCOLS"
            (extraProtocols (WithKafkaConnection connection minion).1);
          WithEnv "KAFKA_BOOTSTRAP_SERVER"
            (kafka.BootstrapServers connection)])%list.
Proof.
  unfold WithKafkaConnection.
  destruct (Strings.Contains (extraProtocols minion) ",KAFKA");
    cbn; by rewrite <- app_assoc.
Qed.

Lemma WithKafkaConnection_keeps_bound connection minion :
  occurrences (extraProtocols minion) ",KAFKA" <= 1 ->
  occurrences (extraProtocols (WithKafkaConnection connection minion).1)
    ",KAFKA" <= 1.
Proof.
  intros Hle. rewrite WithKafkaConnection_extraProtocols.
  destruct (Strings.Contains _ _) eqn:Hc; [done|].
  apply Contains_occurrences in Hc. by rewrite KAFKA_appended_once.
Qed.

Lemma WithKafkaConnection_Contains connection minion :
  Strings.Contains (extraProtocols (WithKafkaConnection connection minion).1)
    ",KAFKA" = true.
Proof.
  rewrite WithKafkaConnection_extraProtocols.
  destruct (Strings.Contains (extraProtocols minion) ",KAFKA") eqn:Hc;
    [done|].
  apply Contains_occurrences, KAFKA_appended_once in Hc.
  apply not_false_iff_true. intros Hn%Contains_occurrences. lia.
Qed.

Lemma reachable_bound minion :
  reachable minion -> occurrences (extraProtocols minion) ",KAFKA" <= 1.
Proof.
  induction 1 as [container|connection minion _ IH].
  - cbn. lia.
  - by apply WithKafkaConnection_keeps_bound.
Qed.

(** A handle the package can produce carries no tag or the Kafka tag. *)
Lemma reachable_tags minion :
  reachable minion ->
  extraProtocols minion = "" \/ extraProtocols minion = ",KAFKA".
Proof.
  induction 1 as [container|connection minion _ [IH|IH]].
  - by left.
  - right. by rewrite WithKafkaConnection_extraProtocols, IH.
  - right. by rewrite WithKafkaConnection_extraProtocols, IH.
Qed.

Lemma applyKafka_reachable connections minion :
  reachable minion -> reachable (applyKafka connections minion).
Proof.
  revert minion.
  induction connections as [|c rest IH]; intros minion Hr; [done|].
  apply IH. by constructor.
Qed.

(** C5. On every handle the package can produce, and after the Kafka
    option has been applied any number of times to it, the fragment
    ",KAFKA" occurs at most once in [extraProtocols]; and on any handle,
    applying the option twice leaves the same protocol tag string as
    applying it once. *)
Theorem extraProtocols_KAFKA_once minion :
  reachable minion ->
  forall connections,
    occurrences (extraProtocols (applyKafka connections minion)) ",KAFKA" <= 1
    /\ (extraProtocols (applyKafka connections minion) = ""
        \/ extraProtocols (applyKafka connections minion) = ",KAFKA")
    /\ (forall c1 c2,
          extraProtocols (applyKafka [c1; c2] minion)
          = extraProtocols (applyKafka [c1] minion)).
Proof.
  intros Hr connections. split; [|split].
  - by apply reachable_bound, applyKafka_reachable.
  - by apply reachable_tags, applyKafka_reachable.
  - intros c1 c2. unfold applyKafka. cbn [fold_left].
    rewrite (WithKafkaConnection_extraProtocols c2).
    by rewrite WithKafkaConnection_Contains.
Qed.

(** C10. The first application of the Kafka option to a handle whose
    protocol tag string is empty makes the string exactly ",KAFKA", with
    its leading comma, and queues, after what was pending, the
    customization that sets ASYNC_PROTOCOLS to that very string and then
    the one that sets KAFKA_BOOTSTRAP_SERVER to the bootstrap servers. *)
Theorem WithKafkaConnection_first connection minion :
  extraProtocols minion = "" ->
  extraProtocols (WithKafkaConnection connection minion).1 = ",KAFKA"
  /\ list_ (containerOptions (WithKafkaConnection connection minion).1)
     = (list_ (containerOptions minion)
         ++ [WithEnv "ASYNC_PROTOCOLS" ",KAFKA";
             WithEnv "KAFKA_BOOTSTRAP_SERVER"
               (kafka.BootstrapServers connection)])%list
  /\ (forall req,
        mapaccess (Env (Customize (WithEnv "ASYNC_PROTOCOLS" ",KAFKA") req).1)
          "ASYNC_PROTOCOLS" = Some ",KAFKA")
  /\ (WithKafkaConnection connection minion).2 = None.
Proof.
  intros Hempty.
  assert (extraProtocols (WithKafkaConnection connection minion).1 = ",KAFKA")
    as Htag by (by rewrite WithKafkaConnection_extraProtocols, Hempty).
  repeat split; [done| |].
  - by rewrite WithKafkaConnection_list, Htag.
  - intros req. unfold Customize. rewrite WithEnv_mapaccess.
    by case_decide.
Qed.

End KafkaOption.

(** ** The Kafka option and the launched container *)

Section KafkaLaunch.
Context `{Runtime}.

(** C1, the code on the failing input.  [RunContainer] takes request
    customizers only, so the Kafka option can only be applied to the
    handle it returns.  With no customizer the request handed to the
    runtime binds MICROCKS_HOST_PORT alone: neither ASYNC_PROTOCOLS nor
    KAFKA_BOOTSTRAP_SERVER is set.  Applying the Kafka option to the
    returned handle leaves the two [WithEnv] customizations in the
    handle's pending list, which no function of the package reads. *)
Theorem WithKafkaConnection_not_launched ctx microcksHostPort connection container :
  GenericContainer ctx (launchRequest microcksHostPort []) = (container, None) ->
  exists minion,
    RunContainer ctx microcksHostPort [] = (Some minion, None)
    /\ Env (launchRequest microcksHostPort [])
       = Some {[ "MICROCKS_HOST_PORT" := microcksHostPort ]}
    /\ mapaccess (Env (launchRequest microcksHostPort [])) "ASYNC_PROTOCOLS"
       = None
    /\ mapaccess (Env (launchRequest microcksHostPort []))
         "KAFKA_BOOTSTRAP_SERVER" = None
    /\ (WithKafkaConnection connection minion).1
       = {| Container := container;
            extraProtocols := ",KAFKA";
            containerOptions :=
              {| list_ := [WithEnv "ASYNC_PROTOCOLS" ",KAFKA";
                           WithEnv "KAFKA_BOOTSTRAP_SERVER"
                             (kafka.BootstrapServers connection)] |} |}.
Proof.
  intros Hstart. exists (newMinion container).
  rewrite RunContainer_unfold, Hstart. done.
Qed.

End KafkaLaunch.

(** ** The theorems on concrete inputs *)

Lemma WSMockEndpoint_url_witness :
  @Host fakeLibrary localContainer tt = ("localhost", None)
  /\ @MappedPort fakeLibrary localContainer tt DefaultHttpPort
     = ("49213/tcp", None)
  /\ @WSMockEndpoint fakeLibrary (fakeMinion localContainer) tt
       "Pets" "v1" "subscribe"
     = Some ("ws://localhost:49213/api/ws/Pets/v1/subscribe", None)
  /\ @WSMockEndpoint fakeLibrary (fakeMinion localContainer) tt
       "Order Service" "1.0 beta" "subscribe"
     = Some ("ws://localhost:49213/api/ws/Order+Service/1.0+beta/subscribe",
             None).
Proof.
  split; [reflexivity|]. split; [reflexivity|].
  destruct (@WSMockEndpoint_url fakeLibrary (fakeMinion localContainer) tt
              "localhost" "49213/tcp" eq_refl eq_refl)
    as (_ & Hpets & Horder).
  split; [apply Hpets; reflexivity | exact (Horder "subscribe")].
Defined.

Lemma WSMockEndpoint_second_token_witness :
  hasSpace "SUBSCRIBE user/signedup now" = true
  /\ operationSegment "SUBSCRIBE user/signedup now" = Some "user/signedup"
  /\ @WSMockEndpoint fakeLibrary (fakeMinion localContainer) tt
       "Pets" "v1" "SUBSCRIBE user/signedup now"
     = Some ("ws://localhost:49213/api/ws/Pets/v1/user/signedup", None).
Proof.
  split; [reflexivity|].
  destruct (@WSMockEndpoint_second_token fakeLibrary
              (fakeMinion localContainer) tt "localhost" "49213/tcp"
              "Pets" "v1" "SUBSCRIBE user/signedup now"
              eq_refl eq_refl eq_refl)
    as (Hsegment & Hurl & _).
  split; [exact Hsegment | exact Hurl].
Defined.

(** C3 as first stated fails on "POST /orders": the second token of the
    split is "/orders", so the operation segment is not "orders" and the
    address ends in "//orders". *)
Lemma WSMockEndpoint_POST_orders_keeps_slash :
  operationSegment "POST /orders" <> Some "orders"
  /\ @WSMockEndpoint fakeLibrary (fakeMinion localContainer) tt
       "Pets" "v1" "POST /orders"
     <> Some ("ws://localhost:49213/api/ws/Pets/v1/orders", None)
  /\ @WSMockEndpoint fakeLibrary (fakeMinion localContainer) tt
       "Pets" "v1" "POST /orders"
     = Some ("ws://localhost:49213/api/ws/Pets/v1//orders", None).
Proof. split; [|split]; [discriminate | discriminate | reflexivity]. Qed.

Lemma WSMockEndpoint_errors_witness :
  @WSMockEndpoint fakeLibrary (fakeMinion stoppedContainer) tt "Pets" "v1" ""
  = Some ("", Some "container is not running")
  /\ @WSMockEndpoint fakeLibrary (fakeMinion unmappedContainer) tt "" "" ""
     = Some ("", Some "port not found")
  /\ @WSMockEndpoint fakeLibrary (fakeMinion localContainer) tt "" "" ""
     = Some ("ws://localhost:49213/api/ws///", None).
Proof.
  split; [|split].
  - destruct (@WSMockEndpoint_errors fakeLibrary (fakeMinion stoppedContainer)
                tt "Pets" "v1" "") as (url & err & Hrun & Hiff & Hsame & _).
    destruct (proj2 Hiff) as [e ->]; [left; by eexists|].
    destruct (Hsame e eq_refl) as [-> [Hhost|[Hhost _]]];
      [|discriminate Hhost].
    injection Hhost as <-. exact Hrun.
  - destruct (@WSMockEndpoint_errors fakeLibrary (fakeMinion unmappedContainer)
                tt "" "" "") as (url & err & Hrun & Hiff & Hsame & _).
    destruct (proj2 Hiff) as [e ->]; [right; by eexists|].
    destruct (Hsame e eq_refl) as [-> [Hhost|[_ Hport]]];
      [discriminate Hhost|].
    injection Hport as <-. exact Hrun.
  - destruct (@WSMockEndpoint_errors fakeLibrary (fakeMinion localContainer)
                tt "" "" "") as (url & err & Hrun & Hiff & _ & _ & Hempty).
    destruct err as [e|].
    + destruct (proj1 Hiff) as [[? Hhost]|[? Hport]];
        [by eexists | discriminate Hhost | discriminate Hport].
    + rewrite Hrun, (Hempty eq_refl eq_refl eq_refl eq_refl). reflexivity.
Defined.

Lemma RunContainer_request_witness :
  mapaccess
    (Env (@launchRequest fakeLibrary "microcks:8080"
            [WithEnv "A" "1"; WithNetwork "net"; WithEnv "A" "2"])) "A"
  = Some "2"
  /\ Networks (@launchRequest fakeLibrary "microcks:8080"
                 [WithEnv "A" "1"; WithNetwork "net"; WithEnv "A" "2"])
     = ["net"]
  /\ mapaccess
       (Env (@launchRequest fakeLibrary "microcks:8080"
               [WithEnv "A" "1"; WithEnv "A" "2"])) "A"
     = Some "2"
  /\ @RunContainer fakeLibrary failingRuntime tt "microcks:8080"
       [WithEnv "A" "1"; WithNetwork "net"; WithEnv "A" "2"]
     = (None, Some "daemon unreachable").
Proof.
  destruct (@RunContainer_request fakeLibrary failingRuntime tt "microcks:8080"
              [WithEnv "A" "1"; WithNetwork "net"; WithEnv "A" "2"])
    as (_ & Hedited & _ & _ & _ & _ & Hrun).
  destruct (@RunContainer_request fakeLibrary failingRuntime tt "microcks:8080"
              [WithEnv "A" "1"; WithEnv "A" "2"])
    as (_ & _ & _ & _ & Hsecond & _).
  split; [|split; [|split]].
  - rewrite Hedited. reflexivity.
  - rewrite Hedited. reflexivity.
  - exact (Hsecond "A" "1" "2" eq_refl).
  - exact Hrun.
Defined.

Lemma RunContainer_outcome_witness :
  @RunContainer fakeLibrary failingRuntime tt "microcks:8080" []
  = (None, Some "daemon unreachable")
  /\ exists minion,
       @RunContainer fakeLibrary startingRuntime tt "microcks:8080" []
       = (Some minion, None)
       /\ Container minion = localContainer.
Proof.
  split.
  - destruct (@RunContainer_outcome fakeLibrary failingRuntime tt
                "microcks:8080" []) as (Hfail & _).
    exact (Hfail stoppedContainer "daemon unreachable" eq_refl).
  - destruct (@RunContainer_outcome fakeLibrary startingRuntime tt
                "microcks:8080" []) as (_ & Hstart & _).
    exact (Hstart localContainer eq_refl).
Defined.

Lemma extraProtocols_KAFKA_once_witness :
  reachable (fakeMinion localContainer)
  /\ occurrences
       (extraProtocols
          (applyKafka [ {| kafka.BootstrapServers := "kafka:9092" |};
                        {| kafka.BootstrapServers := "kafka:9093" |} ]
             (fakeMinion localContainer))) ",KAFKA" <= 1.
Proof.
  split; [constructor|].
  apply (@extraProtocols_KAFKA_once fakeLibrary (fakeMinion localContainer)
           (@reachable_new fakeLibrary localContainer)).
Defined.

Lemma WithKafkaConnection_first_witness :
  extraProtocols (fakeMinion localContainer) = ""
  /\ extraProtocols
       (WithKafkaConnection {| kafka.BootstrapServers := "kafka:9092" |}
          (fakeMinion localContainer)).1 = ",KAFKA".
Proof.
  split; [reflexivity|].
  apply (@WithKafkaConnection_first fakeLibrary
           {| kafka.BootstrapServers := "kafka:9092" |}
           (fakeMinion localContainer) eq_refl).
Defined.

Lemma WithKafkaConnection_not_launched_witness :
  @GenericContainer fakeLibrary startingRuntime tt
    (@launchRequest fakeLibrary "microcks:8080" [])
  = (localContainer, None)
  /\ exists minion,
       @RunContainer fakeLibrary startingRuntime tt "microcks:8080" []
       = (Some minion, None)
       /\ mapaccess (Env (@launchRequest fakeLibrary "microcks:8080" []))
            "KAFKA_BOOTSTRAP_SERVER" = None
       /\ list_ (containerOptions
                   (WithKafkaConnection
                      {| kafka.BootstrapServers := "kafka:9092" |} minion).1)
          = [WithEnv "ASYNC_PROTOCOLS" ",KAFKA";
             WithEnv "KAFKA_BOOTSTRAP_SERVER" "kafka:9092"].
Proof.
  split; [reflexivity|].
  destruct (@WithKafkaConnection_not_launched fakeLibrary startingRuntime tt
              "microcks:8080" {| kafka.BootstrapServers := "kafka:9092" |}
              localContainer eq_refl)
    as (minion & Hrun & _ & _ & Hbootstrap & Hafter).
  exists minion. split; [exact Hrun|]. split; [exact Hbootstrap|].
  rewrite Hafter. reflexivity.
Defined.

(** ** Sequences of the package's customizers *)

Section OptionSequences.
Context `{Testcontainers}.

Lemma customizerOf_untouched o req :
  Image (customizerOf o req).1 = Image req
  /\ ExposedPorts (customizerOf o req).1 = ExposedPorts req
  /\ WaitingFor (customizerOf o req).1 = WaitingFor req
  /\ Started (customizerOf o req).1 = Started req
  /\ (customizerOf o req).2 = None.
Proof.
  destruct o as [n|n a|k v]; cbn [customizerOf].
  - done.
  - unfold WithNetworkAlias. by destruct (NetworkAliases req).
  - unfold WithEnv. by destruct (Env req).
Qed.

Lemma customizerOf_Networks o req :
  Networks (customizerOf o req).1 = (Networks req ++ networkNames [o])%list.
Proof.
  destruct o as [n|n a|k v]; cbn [customizerOf networkNames].
  - done.
  - unfold WithNetworkAlias. rewrite app_nil_r.
    by destruct (NetworkAliases req).
  - unfold WithEnv. rewrite app_nil_r. by destruct (Env req).
Qed.

Lemma WithNetworkAlias_Env networkName networkAlias req :
  Env (WithNetworkAlias networkName networkAlias req).1 = Env req.
Proof. unfold WithNetworkAlias. by destruct (NetworkAliases req). Qed.

Lemma WithEnv_NetworkAliases key value req :
  NetworkAliases (WithEnv key value req).1 = NetworkAliases req.
Proof. unfold WithEnv. by destruct (Env req). Qed.

Lemma WithNetworkAlias_mapaccess networkName networkAlias req n :
  mapaccess (NetworkAliases (WithNetworkAlias networkName networkAlias req).1) n
  = if decide (networkName = n) then Some [networkAlias]
    else mapaccess (NetworkAliases req) n.
Proof.
  rewrite WithNetworkAlias_NetworkAliases. unfold mapaccess.
  cbn [mbind option_bind]. rewrite lookup_insert. case_decide; [done|].
  destruct (NetworkAliases req); [done|]. apply lookup_empty.
Qed.

Lemma customizerOf_Env o req k :
  mapaccess (Env (customizerOf o req).1) k
  = match lastValue k (envCalls [o]) with
    | Some value => Some value
    | None => mapaccess (Env req) k
    end.
Proof.
  destruct o as [n|n a|key value]; cbn [customizerOf envCalls lastValue].
  - done.
  - by rewrite WithNetworkAlias_Env.
  - rewrite WithEnv_mapaccess. by case_decide.
Qed.

Lemma customizerOf_NetworkAliases o req n :
  mapaccess (NetworkAliases (customizerOf o req).1) n
  = match lastValue n (aliasCalls [o]) with
    | Some networkAlias => Some [networkAlias]
    | None => mapaccess (NetworkAliases req) n
    end.
Proof.
  destruct o as [m|m a|key value]; cbn [customizerOf aliasCalls lastValue].
  - done.
  - rewrite WithNetworkAlias_mapaccess. by case_decide.
  - by rewrite WithEnv_NetworkAliases.
Qed.

Lemma envCalls_cons o os : envCalls (o :: os) = (envCalls [o] ++ envCalls os)%list.
Proof. by destruct o. Qed.

Lemma aliasCalls_cons o os :
  aliasCalls (o :: os) = (aliasCalls [o] ++ aliasCalls os)%list.
Proof. by destruct o. Qed.

Lemma lastValue_app k calls1 calls2 :
  lastValue k (calls1 ++ calls2)%list
  = match lastValue k calls2 with
    | Some later => Some later
    | None => lastValue k calls1
    end.
Proof.
  induction calls1 as [|[key value] calls1 IH].
  - cbn. by destruct (lastValue k calls2).
  - cbn [app lastValue]. rewrite IH.
    by destruct (lastValue k calls2).
Qed.

Lemma customizeAll_untouched os req :
  let final := customizeAll (List.map customizerOf os) req in
  Image final = Image req
  /\ ExposedPorts final = ExposedPorts req
  /\ WaitingFor final = WaitingFor req
  /\ Started final = Started req.
Proof.
  cbv zeta. revert req. induction os as [|o os IH]; intros req; [done|].
  cbn [List.map]. rewrite customizeAll_cons. unfold Customize.
  destruct (IH (customizerOf o req).1) as (-> & -> & -> & ->).
  destruct (customizerOf_untouched o req) as (-> & -> & -> & -> & _). done.
Qed.

Lemma customizeAll_Networks os req :
  Networks (customizeAll (List.map customizerOf os) req)
  = (Networks req ++ networkNames os)%list.
Proof.
  revert req. induction os as [|o os IH]; intros req.
  - cbn. by rewrite app_nil_r.
  - cbn [List.map]. rewrite customizeAll_cons. unfold Customize.
    rewrite IH, customizerOf_Networks, <- app_assoc. by destruct o.
Qed.

Lemma customizeAll_Env os req k :
  mapaccess (Env (customizeAll (List.map customizerOf os) req)) k
  = match lastValue k (envCalls os) with
    | Some value => Some value
    | None => mapaccess (Env req) k
    end.
Proof.
  revert req. induction os as [|o os IH]; intros req; [done|].
  cbn [List.map]. rewrite customizeAll_cons. unfold Customize.
  rewrite IH, envCalls_cons, lastValue_app, customizerOf_Env.
  by destruct (lastValue k (envCalls os)).
Qed.

Lemma customizeAll_NetworkAliases os req n :
  mapaccess (NetworkAliases (customizeAll (List.map customizerOf os) req)) n
  = match lastValue n (aliasCalls os) with
    | Some networkAlias => Some [networkAlias]
    | None => mapaccess (NetworkAliases req) n
    end.
Proof.
  revert req. induction os as [|o os IH]; intros req; [done|].
  cbn [List.map]. rewrite customizeAll_cons. unfold Customize.
  rewrite IH, aliasCalls_cons, lastValue_app, customizerOf_NetworkAliases.
  by destruct (lastValue n (aliasCalls os)).
Qed.

End OptionSequences.

Section OptionSequenceFacts.
Context `{Testcontainers}.

(** X1. [WithNetwork] keeps every call: after any sequence of the
    package's customizers the network list is the one the request had,
    followed by the names of the [WithNetwork] calls in call order, a name
    given twice appearing twice; [WithNetworkAlias] and [WithEnv] add no
    network.  A request launched by [RunContainer] starts with no network. *)
Theorem WithNetwork_keeps_every_call (os : list moduleOption)
    (req : GenericContainerRequest) (microcksHostPort : string) :
  Networks (customizeAll (List.map customizerOf os) req)
  = (Networks req ++ networkNames os)%list
  /\ Networks (launchRequest microcksHostPort (List.map customizerOf os))
     = networkNames os
  /\ (forall networkName,
        Networks (customizeAll [WithNetwork networkName;
                                WithNetwork networkName] req)
        = (Networks req ++ [networkName; networkName])%list).
Proof.
  split; [|split].
  - apply customizeAll_Networks.
  - unfold launchRequest. by rewrite customizeAll_Networks.
  - intros networkName.
    exact (customizeAll_Networks
             [NetworkOption networkName; NetworkOption networkName] req).
Qed.

(** X2. None of [WithNetwork], [WithNetworkAlias] and [WithEnv] touches
    the image, the exposed ports, the readiness condition or the started
    flag: whatever sequence of them [RunContainer] is given, the request it
    launches has the default image, the port 8081/tcp alone, the wait on the
    log line and [Started] set. *)
Theorem launchRequest_keeps_defaults (microcksHostPort : string)
    (os : list moduleOption) :
  let req := launchRequest microcksHostPort (List.map customizerOf os) in
  Image req = DefaultImage
  /\ ExposedPorts req = [DefaultHttpPort]
  /\ WaitingFor req = Some (ForLog "Profile prod activated")
  /\ Started req = true.
Proof.
  cbv zeta. unfold launchRequest.
  destruct (customizeAll_untouched os (defaultRequest microcksHostPort))
    as (-> & -> & -> & ->).
  done.
Qed.

(** X3. The environment of the request [RunContainer] launches, for any
    sequence of the package's customizers: a key reads as the value of the
    last [WithEnv] call made with it; with no such call MICROCKS_HOST_PORT
    reads as the caller's host and port and any other key is absent.  So
    MICROCKS_HOST_PORT is always bound, and a [WithEnv] call on that key
    replaces the caller's value. *)
Theorem launchRequest_environment (microcksHostPort : string)
    (os : list moduleOption) (k : string) :
  let req := launchRequest microcksHostPort (List.map customizerOf os) in
  mapaccess (Env req) k
  = match lastValue k (envCalls os) with
    | Some value => Some value
    | None =>
        if decide (k = "MICROCKS_HOST_PORT") then Some microcksHostPort
        else None
    end
  /\ is_Some (mapaccess (Env req) "MICROCKS_HOST_PORT").
Proof.
  cbv zeta. unfold launchRequest.
  assert (forall key,
    mapaccess (Env (defaultRequest microcksHostPort)) key
    = if decide (key = "MICROCKS_HOST_PORT") then Some microcksHostPort
      else None) as Hdefault.
  { intros key. unfold mapaccess. cbn. case_decide as Hk.
    - subst key. apply lookup_singleton_eq.
    - by apply lookup_singleton_ne. }
  split.
  - by rewrite customizeAll_Env, Hdefault.
  - rewrite customizeAll_Env, Hdefault.
    destruct (lastValue _ _); [by eexists|]. by eexists.
Qed.

(** X4. After any sequence of the package's customizers, a network that
    had a [WithNetworkAlias] call has exactly one alias, the one of the last
    such call for it; a network without a call keeps the aliases it had.
    In a request launched by [RunContainer] a network without a call has no
    alias entry. *)
Theorem WithNetworkAlias_last_alias_wins (os : list moduleOption)
    (req : GenericContainerRequest) (microcksHostPort n : string) :
  mapaccess (NetworkAliases (customizeAll (List.map customizerOf os) req)) n
  = match lastValue n (aliasCalls os) with
    | Some networkAlias => Some [networkAlias]
    | None => mapaccess (NetworkAliases req) n
    end
  /\ mapaccess
       (NetworkAliases (launchRequest microcksHostPort (List.map customizerOf os)))
       n
     = (fun networkAlias => [networkAlias]) <$> lastValue n (aliasCalls os).
Proof.
  split.
  - apply customizeAll_NetworkAliases.
  - unfold launchRequest. rewrite customizeAll_NetworkAliases.
    by destruct (lastValue n (aliasCalls os)).
Qed.

(** X5. Customizers that write different things can be given in either
    order: [WithNetwork], [WithNetworkAlias] and [WithEnv] commute with one
    another, two [WithEnv] calls commute when their keys differ and two
    [WithNetworkAlias] calls commute when their networks differ. *)
Theorem customizers_commute (req : GenericContainerRequest) :
  (forall n k v,
      customizeAll [WithNetwork n; WithEnv k v] req
      = customizeAll [WithEnv k v; WithNetwork n] req)
  /\ (forall n m a,
      customizeAll [WithNetwork n; WithNetworkAlias m a] req
      = customizeAll [WithNetworkAlias m a; WithNetwork n] req)
  /\ (forall m a k v,
      customizeAll [WithNetworkAlias m a; WithEnv k v] req
      = customizeAll [WithEnv k v; WithNetworkAlias m a] req)
  /\ (forall k1 v1 k2 v2,
      k1 <> k2 ->
      customizeAll [WithEnv k1 v1; WithEnv k2 v2] req
      = customizeAll [WithEnv k2 v2; WithEnv k1 v1] req)
  /\ (forall n1 a1 n2 a2,
      n1 <> n2 ->
      customizeAll [WithNetworkAlias n1 a1; WithNetworkAlias n2 a2] req
      = customizeAll [WithNetworkAlias n2 a2; WithNetworkAlias n1 a1] req).
Proof.
  destruct req as [[image ports waiting env networks aliases] started].
  unfold customizeAll, Customize, WithNetwork, WithEnv, WithNetworkAlias.
  repeat split.
  - intros n k v. by destruct env.
  - intros n m a. by destruct aliases.
  - intros m a k v. by destruct env, aliases.
  - intros k1 v1 k2 v2 Hne. destruct env; cbn;
      by rewrite (insert_insert_ne _ k1 k2).
  - intros n1 a1 n2 a2 Hne. destruct aliases; cbn;
      by rewrite (insert_insert_ne _ n1 n2).
Qed.

(** X6. Giving the same [WithEnv] or the same [WithNetworkAlias] call a
    second time changes nothing, whereas every [WithNetwork] call, repeated
    or not, makes the network list one longer. *)
Theorem customizers_reapplied (req : GenericContainerRequest) :
  (forall k v,
      customizeAll [WithEnv k v; WithEnv k v] req
      = customizeAll [WithEnv k v] req)
  /\ (forall n a,
      customizeAll [WithNetworkAlias n a; WithNetworkAlias n a] req
      = customizeAll [WithNetworkAlias n a] req)
  /\ (forall n,
      length (Networks (customizeAll [WithNetwork n] req))
      = S (length (Networks req))
      /\ customizeAll [WithNetwork n; WithNetwork n] req
         <> customizeAll [WithNetwork n] req).
Proof.
  destruct req as [[image ports waiting env networks aliases] started].
  unfold customizeAll, Customize, WithNetwork, WithEnv, WithNetworkAlias.
  split; [|split].
  - intros k v. destruct env; cbn; by rewrite insert_insert_eq.
  - intros n a. destruct aliases; cbn; by rewrite insert_insert_eq.
  - intros n. split.
    + cbn. rewrite length_app. cbn. lia.
    + cbn. intros Heq.
      apply (f_equal (fun r : GenericContainerRequest => length (Networks r)))
        in Heq.
      cbn in Heq. rewrite !length_app in Heq. cbn in Heq. lia.
Qed.

End OptionSequenceFacts.

(** ** Errors of customizers, and the pending list of the handle *)

Section CustomizerErrors.
Context `{Runtime}.

Lemma customizeAll_same_edits opts1 opts2 :
  Forall2 (fun o1 o2 => forall req, (Customize o1 req).1 = (Customize o2 req).1)
          opts1 opts2 ->
  forall req, customizeAll opts1 req = customizeAll opts2 req.
Proof.
  induction 1 as [|o1 o2 rest1 rest2 Hhead _ IH]; intros req; [done|].
  rewrite !customizeAll_cons, Hhead. apply IH.
Qed.

(** X7. [RunContainer] never looks at what a customizer returns: two
    option lists whose customizers make the same edits, whatever errors they
    return, launch the same request and give the same outcome.  So a
    customizer that fails still has its edit applied and does not stop the
    launch. *)
Theorem RunContainer_ignores_customizer_errors ctx microcksHostPort opts1 opts2 :
  Forall2 (fun o1 o2 => forall req, (Customize o1 req).1 = (Customize o2 req).1)
          opts1 opts2 ->
  launchRequest microcksHostPort opts1 = launchRequest microcksHostPort opts2
  /\ RunContainer ctx microcksHostPort opts1
     = RunContainer ctx microcksHostPort opts2.
Proof.
  intros Hsame.
  assert (launchRequest microcksHostPort opts1
          = launchRequest microcksHostPort opts2) as Hreq
    by (unfold launchRequest; by apply customizeAll_same_edits).
  split; [exact Hreq|]. by rewrite !RunContainer_unfold, Hreq.
Qed.

End CustomizerErrors.

Section PendingList.
Context `{Testcontainers}.

Lemma applyKafka_snoc connections connection minion :
  applyKafka (connections ++ [connection])%list minion
  = (WithKafkaConnection connection (applyKafka connections minion)).1.
Proof. unfold applyKafka. by rewrite fold_left_app. Qed.

Lemma WithKafkaConnection_Container connection minion :
  Container (WithKafkaConnection connection minion).1 = Container minion.
Proof.
  unfold WithKafkaConnection.
  by destruct (Strings.Contains (extraProtocols minion) ",KAFKA").
Qed.

Lemma applyKafka_Container connections minion :
  Container (applyKafka connections minion) = Container minion.
Proof.
  induction connections as [|c rest IH] using rev_ind; [done|].
  by rewrite applyKafka_snoc, WithKafkaConnection_Container.
Qed.

Lemma addAll_list co opts : list_ (addAll co opts) = (list_ co ++ opts)%list.
Proof.
  revert co. induction opts as [|opt opts IH]; intros co.
  - cbn. by rewrite app_nil_r.
  - cbn [addAll fold_left]. fold (addAll (Add co opt) opts).
    rewrite IH. cbn. by rewrite <- app_assoc.
Qed.

(** X8. [ContainerOptions.Add] keeps what was added before and puts the
    new customizer last: after any number of additions the list is the old
    one followed by the added customizers in the order of the calls, and
    nothing is dropped or merged, a customizer added twice being there
    twice. *)
Theorem Add_appends_in_order (co : ContainerOptions)
    (opts : list ContainerCustomizer) :
  list_ (addAll co opts) = (list_ co ++ opts)%list
  /\ length (list_ (addAll co opts)) = length (list_ co) + length opts
  /\ (forall i opt, list_ co !! i = Some opt ->
                    list_ (addAll co opts) !! i = Some opt)
  /\ (forall opt, list_ (addAll co [opt; opt]) = (list_ co ++ [opt; opt])%list).
Proof.
  split; [|split; [|split]].
  - apply addAll_list.
  - by rewrite addAll_list, length_app.
  - intros i opt Hi. rewrite addAll_list. by apply lookup_app_l_Some.
  - intros opt. apply addAll_list.
Qed.

(** X9. Each application of the Kafka option adds two customizers to the
    handle's pending list, after those already there, even when the protocol
    tag was already present; the container of the handle is left as it
    was. *)
Theorem WithKafkaConnection_queue_grows connections minion :
  length (list_ (containerOptions (applyKafka connections minion)))
  = length (list_ (containerOptions minion)) + 2 * length connections
  /\ list_ (containerOptions minion)
       `prefix_of` list_ (containerOptions (applyKafka connections minion))
  /\ Container (applyKafka connections minion) = Container minion.
Proof.
  split; [|split].
  - induction connections as [|c rest IH] using rev_ind; [cbn; lia|].
    rewrite applyKafka_snoc, WithKafkaConnection_list, !length_app, IH.
    cbn. lia.
  - induction connections as [|c rest IH] using rev_ind; [done|].
    rewrite applyKafka_snoc, WithKafkaConnection_list.
    by apply prefix_app_r.
  - apply applyKafka_Container.
Qed.

(** X10. What the pending list stands for: applied in order to a request,
    the customizers queued by one or more applications of the Kafka option
    bind ASYNC_PROTOCOLS to the handle's protocol tag string and
    KAFKA_BOOTSTRAP_SERVER to the bootstrap servers of the connection given
    last. *)
Theorem pending_list_sets_Kafka_environment connections connection minion req :
  let after := applyKafka (connections ++ [connection])%list minion in
  let edited := customizeAll (list_ (containerOptions after)) req in
  mapaccess (Env edited) "ASYNC_PROTOCOLS" = Some (extraProtocols after)
  /\ mapaccess (Env edited) "KAFKA_BOOTSTRAP_SERVER"
     = Some (kafka.BootstrapServers connection)
  /\ Strings.Contains (extraProtocols after) ",KAFKA" = true.
Proof.
  cbv zeta. rewrite applyKafka_snoc.
  set (before := applyKafka connections minion).
  rewrite WithKafkaConnection_list.
  change [WithEnv "ASYNC_PROTOCOLS"
            (extraProtocols (WithKafkaConnection connection before).1);
          WithEnv "KAFKA_BOOTSTRAP_SERVER" (kafka.BootstrapServers connection)]
    with ([WithEnv "ASYNC_PROTOCOLS"
             (extraProtocols (WithKafkaConnection connection before).1)]
          ++ [WithEnv "KAFKA_BOOTSTRAP_SERVER"
                (kafka.BootstrapServers connection)])%list.
  rewrite app_assoc, !customizeAll_snoc. unfold Customize.
  split; [|split].
  - rewrite !WithEnv_mapaccess. by repeat case_decide.
  - rewrite WithEnv_mapaccess. by case_decide.
  - apply WithKafkaConnection_Contains.
Qed.

(** X11. On any handle, whatever its protocol tag string, the Kafka option
    leaves a string that contains ",KAFKA", keeps the tags that were there
    in front of it, does not depend on the connection, keeps the container
    and returns no error. *)
Theorem WithKafkaConnection_postcondition connection minion :
  let after := (WithKafkaConnection connection minion).1 in
  Strings.Contains (extraProtocols after) ",KAFKA" = true
  /\ (extraProtocols after = extraProtocols minion
      \/ extraProtocols after = extraProtocols minion +:+ ",KAFKA")
  /\ (forall other,
        extraProtocols (WithKafkaConnection other minion).1
        = extraProtocols after)
  /\ Container after = Container minion
  /\ (WithKafkaConnection connection minion).2 = None.
Proof.
  cbv zeta. split; [|split; [|split; [|split]]].
  - apply WithKafkaConnection_Contains.
  - rewrite WithKafkaConnection_extraProtocols.
    destruct (Strings.Contains _ _); [by left | by right].
  - intros other. by rewrite !WithKafkaConnection_extraProtocols.
  - apply WithKafkaConnection_Container.
  - reflexivity.
Qed.

End PendingList.

(** ** Spaces in the endpoint address *)

Lemma spacesToPlus_no_space (s : string) :
  hasSpace s = false -> spacesToPlus s = s.
Proof.
  induction s as [|a s IH]; [done|].
  cbn [hasSpace spacesToPlus]. intros [Ha Hs]%orb_false_iff.
  by rewrite Ha, IH.
Qed.

Lemma hasSpace_spacesToPlus (s : string) : hasSpace (spacesToPlus s) = false.
Proof.
  induction s as [|a s IH]; [done|].
  cbn [hasSpace spacesToPlus]. rewrite IH, orb_false_r.
  by destruct (Ascii.eqb a " ") eqn:Ha.
Qed.

Lemma hasSpace_beforeSpace (s : string) : hasSpace (beforeSpace s) = false.
Proof.
  induction s as [|a s IH]; [done|].
  cbn [beforeSpace]. destruct (Ascii.eqb a " ") eqn:Ha; [done|].
  cbn [hasSpace]. by rewrite Ha, IH.
Qed.

Lemma hasSpace_app (s t : string) :
  hasSpace (s +:+ t) = hasSpace s || hasSpace t.
Proof.
  induction s as [|a s IH]; [done|].
  rewrite append_cons. cbn [hasSpace]. by rewrite IH, orb_assoc.
Qed.

Lemma hasSpace_normalizedOperation (operationName : string) :
  hasSpace (normalizedOperation operationName) = false.
Proof.
  unfold normalizedOperation, secondToken.
  destruct (hasSpace operationName) eqn:Hs; [|done].
  apply hasSpace_beforeSpace.
Qed.

Section EndpointSpaces.
Context `{Testcontainers}.

(** X12. Names without a space go into the address as they are: when the
    service, the version and the operation name have no space, the address
    is ws://host:port/api/ws/service/version/operation, no byte of the three
    names being changed. *)
Theorem WSMockEndpoint_plain_names minion ctx h p service version operationName :
  Host (Container minion) ctx = (h, None) ->
  MappedPort (Container minion) ctx DefaultHttpPort = (p, None) ->
  hasSpace service = false ->
  hasSpace version = false ->
  hasSpace operationName = false ->
  WSMockEndpoint minion ctx service version operationName
  = Some ("ws://" +:+ h +:+ ":" +:+ Port p +:+ "/api/ws/" +:+ service
            +:+ "/" +:+ version +:+ "/" +:+ operationName, None).
Proof.
  intros Hh Hp Hservice Hversion Hop.
  rewrite (WSMockEndpoint_resolved _ _ _ _ _ _ _ Hh Hp).
  rewrite !spacesToPlus_no_space by done.
  unfold normalizedOperation. by rewrite Hop.
Qed.

(** X13. An operation name whose first space is its last byte, or is
    followed at once by another space, gives an empty operation segment:
    the address then ends with the slash after the version.  A name that
    starts with a space has an empty first token and gives the text up to
    the next space. *)
Theorem WSMockEndpoint_empty_operation_segment minion ctx h p service version verb rest :
  Host (Container minion) ctx = (h, None) ->
  MappedPort (Container minion) ctx DefaultHttpPort = (p, None) ->
  hasSpace verb = false ->
  WSMockEndpoint minion ctx service version (verb +:+ " ")
  = Some ("ws://" +:+ h +:+ ":" +:+ Port p +:+ "/api/ws/"
            +:+ spacesToPlus service +:+ "/" +:+ spacesToPlus version
            +:+ "/" +:+ "", None)
  /\ WSMockEndpoint minion ctx service version (verb +:+ " " +:+ " " +:+ rest)
     = Some ("ws://" +:+ h +:+ ":" +:+ Port p +:+ "/api/ws/"
               +:+ spacesToPlus service +:+ "/" +:+ spacesToPlus version
               +:+ "/" +:+ "", None)
  /\ operationSegment (" " +:+ rest) = Some (beforeSpace rest).
Proof.
  intros Hh Hp Hverb. split; [|split].
  - rewrite (WSMockEndpoint_resolved _ _ _ _ _ _ _ Hh Hp).
    unfold normalizedOperation, secondToken.
    change (verb +:+ " ") with (verb +:+ " " +:+ "").
    rewrite (hasSpace_app_space verb ""), (afterSpace_app verb "" Hverb).
    reflexivity.
  - rewrite (WSMockEndpoint_resolved _ _ _ _ _ _ _ Hh Hp).
    unfold normalizedOperation, secondToken.
    rewrite hasSpace_app_space, (afterSpace_app verb _ Hverb).
    reflexivity.
  - by rewrite operationSegment_normalized.
Qed.

(** X14. The part of the address that follows the host and the port never
    has a space: the spaces of the service and of the version have become
    plus signs and the operation segment is a token of a split on spaces. *)
Theorem WSMockEndpoint_path_without_space minion ctx h p service version operationName :
  Host (Container minion) ctx = (h, None) ->
  MappedPort (Container minion) ctx DefaultHttpPort = (p, None) ->
  exists path,
    WSMockEndpoint minion ctx service version operationName
    = Some ("ws://" +:+ h +:+ ":" +:+ Port p +:+ path, None)
    /\ Strings.HasPrefix path "/api/ws/" = true
    /\ hasSpace path = false.
Proof.
  intros Hh Hp.
  exists ("/api/ws/" +:+ spacesToPlus service +:+ "/" +:+ spacesToPlus version
            +:+ "/" +:+ normalizedOperation operationName).
  split; [|split].
  - by apply WSMockEndpoint_resolved.
  - reflexivity.
  - rewrite !hasSpace_app, !hasSpace_spacesToPlus,
      hasSpace_normalizedOperation. reflexivity.
Qed.

(** X15. [WSMockEndpoint] reads the container of the handle and nothing
    else: applying the Kafka option any number of times to a handle does not
    change the address, or the error, it gives. *)
Theorem WSMockEndpoint_after_Kafka_option connections minion ctx service version operationName :
  WSMockEndpoint (applyKafka connections minion) ctx service version
    operationName
  = WSMockEndpoint minion ctx service version operationName.
Proof.
  unfold WSMockEndpoint. by rewrite applyKafka_Container.
Qed.

End EndpointSpaces.

(** ** Splitting and joining *)


(** ** Where the operation segment and the Kafka tag sit in their strings *)

Lemma split_at_first_space (s : string) :
  s = beforeSpace s +:+ (if hasSpace s then " " +:+ afterSpace s else "").
Proof.
  induction s as [|a s IH]; [done|].
  cbn [beforeSpace hasSpace afterSpace].
  destruct (Ascii.eqb a " ") eqn:Ha.
  - apply Ascii.eqb_eq in Ha. by subst a.
  - cbn [orb]. rewrite append_cons. by rewrite <- IH.
Qed.

Lemma HasPrefix_true_iff (s prefix : string) :
  Strings.HasPrefix s prefix = true <-> exists rest, s = prefix +:+ rest.
Proof.
  revert s. induction prefix as [|p prefix IH]; intros s.
  - split; [intros _; by exists s | done].
  - destruct s as [|a s].
    + split; [done | intros [rest Hrest]; discriminate Hrest].
    + rewrite HasPrefix_cons. destruct (Ascii.eqb a p) eqn:Hap.
      * apply Ascii.eqb_eq in Hap. subst p. rewrite IH.
        split; intros [rest Hrest]; exists rest.
        -- by rewrite append_cons, <- Hrest.
        -- rewrite append_cons in Hrest. by injection Hrest.
      * apply Ascii.eqb_neq in Hap.
        split; [done | intros [rest Hrest]].
        rewrite append_cons in Hrest. injection Hrest as Heq _. done.
Qed.

(** [Contains] holds exactly when the fragment sits somewhere in the
    string. *)
Lemma Contains_true_iff (s fragment : string) :
  Strings.Contains s fragment = true
  <-> exists before after, s = before +:+ fragment +:+ after.
Proof.
  unfold Strings.Contains. rewrite Z.leb_le. split.
  - induction s as [|a s IH]; cbn [Strings.Index].
    + destruct (Strings.HasPrefix "" fragment) eqn:Hpre; [|lia].
      intros _. apply HasPrefix_true_iff in Hpre as [rest Hrest].
      by exists "", rest.
    + destruct (Strings.HasPrefix (String a s) fragment) eqn:Hpre.
      * intros _. apply HasPrefix_true_iff in Hpre as [rest Hrest].
        by exists "", rest.
      * destruct (Z.eqb_spec (Strings.Index s fragment) (-1)); [lia|].
        intros _. pose proof (Index_lower_bound s fragment).
        destruct IH as (before & after & Hs); [lia|].
        exists (String a before), after. by rewrite append_cons, <- Hs.
  - intros (before & after & ->).
    induction before as [|a before IH].
    + change ("" +:+ fragment +:+ after) with (fragment +:+ after).
      assert (Strings.HasPrefix (fragment +:+ after) fragment = true) as Hpre
        by (apply HasPrefix_true_iff; by exists after).
      destruct (fragment +:+ after); cbn [Strings.Index]; by rewrite Hpre.
    + rewrite append_cons. cbn [Strings.Index].
      destruct (Strings.HasPrefix _ fragment); [done|].
      destruct (Z.eqb_spec (Strings.Index (before +:+ fragment +:+ after)
                              fragment) (-1)); lia.
Qed.

Lemma length_append (s t : string) :
  String.length (s +:+ t) = String.length s + String.length t.
Proof.
  induction s as [|a s IH]; [done|].
  rewrite append_cons. cbn [String.length]. by rewrite IH.
Qed.

Lemma append_KAFKA_longer (s : string) : s +:+ ",KAFKA" <> s.
Proof.
  intros Heq. apply (f_equal String.length) in Heq.
  rewrite length_append in Heq. cbn in Heq. lia.
Qed.

Section Positions.
Context `{Testcontainers}.

(** X16. Where the operation segment comes from: an operation name that
    has a space reads verb, space, segment, tail, where the verb and the
    segment have no space and the tail is empty or starts with a space; the
    verb and the tail are what [WSMockEndpoint] leaves out. *)
Theorem operationSegment_position (operationName : string) :
  hasSpace operationName = true ->
  exists verb segment tail,
    operationSegment operationName = Some segment
    /\ operationName = verb +:+ " " +:+ segment +:+ tail
    /\ hasSpace verb = false
    /\ hasSpace segment = false
    /\ (tail = "" \/ Strings.HasPrefix tail " " = true).
Proof.
  intros Hs.
  exists (beforeSpace operationName), (secondToken operationName),
    (if hasSpace (afterSpace operationName)
     then " " +:+ afterSpace (afterSpace operationName) else "").
  split; [|split; [|split; [|split]]].
  - rewrite operationSegment_normalized. unfold normalizedOperation.
    by rewrite Hs.
  - unfold secondToken.
    rewrite <- (split_at_first_space (afterSpace operationName)).
    rewrite (split_at_first_space operationName) at 1. by rewrite Hs.
  - apply hasSpace_beforeSpace.
  - apply hasSpace_beforeSpace.
  - destruct (hasSpace (afterSpace operationName)); [by right | by left].
Qed.

(** X17. The guard of the Kafka option: the protocol tag string is left as
    it was exactly when ",KAFKA" already sits somewhere in it, whatever is
    around it; in every other case the fragment is put at its end. *)
Theorem WithKafkaConnection_guard connection minion :
  (extraProtocols (WithKafkaConnection connection minion).1
   = extraProtocols minion
   <-> exists before after,
         extraProtocols minion = before +:+ ",KAFKA" +:+ after)
  /\ (extraProtocols (WithKafkaConnection connection minion).1
      = extraProtocols minion +:+ ",KAFKA"
      <-> ~ exists before after,
              extraProtocols minion = before +:+ ",KAFKA" +:+ after).
Proof.
  rewrite WithKafkaConnection_extraProtocols, <- Contains_true_iff.
  destruct (Strings.Contains (extraProtocols minion) ",KAFKA").
  - split; [done|]. split; [|done].
    intros Heq. symmetry in Heq. by apply append_KAFKA_longer in Heq.
  - split; [|done]. split; [|done].
    intros Heq. by apply append_KAFKA_longer in Heq.
Qed.

End Positions.

(** ** The further theorems on concrete inputs *)

Lemma customizers_commute_witness :
  "A" <> "B"
  /\ @customizeAll fakeLibrary [WithEnv "A" "1"; WithEnv "B" "2"]
       (defaultRequest "microcks:8080")
     = @customizeAll fakeLibrary [WithEnv "B" "2"; WithEnv "A" "1"]
         (defaultRequest "microcks:8080").
Proof.
  split; [discriminate|].
  destruct (@customizers_commute fakeLibrary (defaultRequest "microcks:8080"))
    as (_ & _ & _ & Henv & _).
  apply Henv. discriminate.
Defined.

Lemma RunContainer_ignores_customizer_errors_witness :
  Forall2 (fun o1 o2 : @ContainerCustomizer fakeLibrary =>
             forall req, (Customize o1 req).1 = (Customize o2 req).1)
          [WithEnv "A" "1"]
          [fun req => ((WithEnv "A" "1" req).1, Some "refused")]
  /\ @RunContainer fakeLibrary startingRuntime tt "microcks:8080"
       [WithEnv "A" "1"]
     = @RunContainer fakeLibrary startingRuntime tt "microcks:8080"
         [fun req => ((WithEnv "A" "1" req).1, Some "refused")].
Proof.
  assert (Forall2 (fun o1 o2 : @ContainerCustomizer fakeLibrary =>
                     forall req, (Customize o1 req).1 = (Customize o2 req).1)
                  [WithEnv "A" "1"]
                  [fun req => ((WithEnv "A" "1" req).1, Some "refused")])
    as Hsame.
  { constructor; [intros req; reflexivity | constructor]. }
  split; [exact Hsame|].
  apply (@RunContainer_ignores_customizer_errors fakeLibrary startingRuntime
           tt "microcks:8080" _ _ Hsame).
Defined.

Lemma Add_appends_in_order_witness :
  list_ (@addAll fakeLibrary {| list_ := [WithNetwork "net"] |}
           [WithEnv "A" "1"]) !! 0%nat
  = Some (WithNetwork "net").
Proof.
  destruct (@Add_appends_in_order fakeLibrary
              {| list_ := [WithNetwork "net"] |} [WithEnv "A" "1"])
    as (_ & _ & Hkept & _).
  apply Hkept. reflexivity.
Defined.

Lemma WSMockEndpoint_plain_names_witness :
  hasSpace "Pets" = false
  /\ @WSMockEndpoint fakeLibrary (fakeMinion localContainer) tt
       "Pets" "v1" "user/signedup"
     = Some ("ws://localhost:49213/api/ws/Pets/v1/user/signedup", None).
Proof.
  split; [reflexivity|].
  apply (@WSMockEndpoint_plain_names fakeLibrary (fakeMinion localContainer)
           tt "localhost" "49213/tcp" "Pets" "v1" "user/signedup"
           eq_refl eq_refl eq_refl eq_refl eq_refl).
Defined.

Lemma WSMockEndpoint_empty_operation_segment_witness :
  hasSpace "SUBSCRIBE" = false
  /\ @WSMockEndpoint fakeLibrary (fakeMinion localContainer) tt
       "Pets" "v1" "SUBSCRIBE "
     = Some ("ws://localhost:49213/api/ws/Pets/v1/", None)
  /\ @WSMockEndpoint fakeLibrary (fakeMinion localContainer) tt
       "Pets" "v1" "SUBSCRIBE  user/signedup"
     = Some ("ws://localhost:49213/api/ws/Pets/v1/", None).
Proof.
  split; [reflexivity|].
  destruct (@WSMockEndpoint_empty_operation_segment fakeLibrary
              (fakeMinion localContainer) tt "localhost" "49213/tcp"
              "Pets" "v1" "SUBSCRIBE" "user/signedup"
              eq_refl eq_refl eq_refl)
    as (Hend & Hdouble & _).
  split; [exact Hend | exact Hdouble].
Defined.

Lemma WSMockEndpoint_path_without_space_witness :
  exists path,
    @WSMockEndpoint fakeLibrary (fakeMinion localContainer) tt
      "Order Service" "1.0 beta" "SUBSCRIBE user/signedup"
    = Some ("ws://" +:+ "localhost" +:+ ":" +:+ "49213" +:+ path, None)
    /\ hasSpace path = false.
Proof.
  destruct (@WSMockEndpoint_path_without_space fakeLibrary
              (fakeMinion localContainer) tt "localhost" "49213/tcp"
              "Order Service" "1.0 beta" "SUBSCRIBE user/signedup"
              eq_refl eq_refl)
    as (path & Hurl & _ & Hspace).
  exists path. split; [exact Hurl | exact Hspace].
Defined.

Lemma operationSegment_position_witness :
  hasSpace "SUBSCRIBE user/signedup now" = true
  /\ exists verb segment tail,
       operationSegment "SUBSCRIBE user/signedup now" = Some segment
       /\ "SUBSCRIBE user/signedup now" = verb +:+ " " +:+ segment +:+ tail
       /\ hasSpace segment = false.
Proof.
  split; [reflexivity|].
  destruct (operationSegment_position "SUBSCRIBE user/signedup now" eq_refl)
    as (verb & segment & tail & Hsegment & Hname & _ & Hspace & _).
  exists verb, segment, tail.
  split; [exact Hsegment|]. split; [exact Hname | exact Hspace].
Defined.
